(** * Pickles: the option registry and the usage printer ([utils/printer.py])

    A shallow embedding of the module: the four [SimpleNamespace] option
    groups, the f-string of [UsagePrinter.print_usage] and the call of
    [print], followed by the properties of the usage text.

    Strings are [string]s of bytes holding the UTF-8 encoding of the Python
    text; UTF-8 is self-synchronising, so a substring or an occurrence of a
    well-formed text is one of its encoding and conversely. *)

From stdpp Require Import base option list strings gmap fin_maps.

(** ** Text operations used to state the properties *)

Module Text.

(** The line feed, ["\n"] in the source. *)
Definition nl : string := String (Ascii.Ascii false true false true false false false false) "".

(** [str.startswith]. *)
Fixpoint startswith (p s : string) : bool :=
  match p, s with
  | EmptyString, _ => true
  | String _ _, EmptyString => false
  | String a p', String b s' => Ascii.eqb a b && startswith p' s'
  end.

(** [p in s]. *)
Fixpoint contains (p s : string) : bool :=
  startswith p s ||
  match s with
  | EmptyString => false
  | String _ s' => contains p s'
  end.

(** The number of positions of [s] at which [p] starts.  For a [p] that
    cannot overlap itself this is [s.count(p)]. *)
Fixpoint occurrences (p s : string) : nat :=
  (if startswith p s then 1 else 0) +
  match s with
  | EmptyString => 0
  | String _ s' => occurrences p s'
  end.

(** [s[n:]]. *)
Fixpoint slice_from (n : nat) (s : string) : string :=
  match n, s with
  | O, _ => s
  | S _, EmptyString => EmptyString
  | S n', String _ s' => slice_from n' s'
  end.

(** [p] occurs in [s] and [q] occurs after that occurrence. *)
Fixpoint contains_then (p q s : string) : bool :=
  (startswith p s && contains q (slice_from (String.length p) s)) ||
  match s with
  | EmptyString => false
  | String _ s' => contains_then p q s'
  end.

(** [p] is a substring of [s]. *)
Definition Substring (p s : string) : Prop :=
  ∃ a b, s = a +:+ p +:+ b.

(** [p] is a substring of [s], and [q] one of what follows it. *)
Definition FollowedBy (p q s : string) : Prop :=
  ∃ a b c, s = a +:+ p +:+ b +:+ q +:+ c.

(** [p] is a whole line of [s], between two line feeds. *)
Definition HasLine (p s : string) : Prop :=
  Substring (nl +:+ p +:+ nl) s.

End Text.
Import Text.

(** ** Exceptions and the monad of the module's code *)

(** The module-level names the f-string reads. *)
Inductive global : Type :=
  | CommandArgs_
  | DataSources_
  | AnalysisTypes_
  | DeliveryMethods_.

Global Instance global_eq_dec : EqDecision global.
Proof. solve_decision. Defined.

(** The exceptions the code can raise: a missing attribute of one of the
    namespaces, and the failure of the write to the output stream. *)
Inductive exn : Type :=
  | AttributeError (obj : global) (attr : string)
  | OSError.

Global Instance exn_eq_dec : EqDecision exn.
Proof. solve_decision. Defined.

Inductive result (A : Type) : Type :=
  | Return (a : A)
  | Raise (e : exn).
Arguments Return {A} a.
Arguments Raise {A} e.

(** The option registry: the four module-level [SimpleNamespace] objects.
    They are ordinary mutable objects, so they are part of the state. *)
Record Registry : Type := mkRegistry {
  reg_CommandArgs : gmap string string;
  reg_DataSources : gmap string string;
  reg_AnalysisTypes : gmap string string;
  reg_DeliveryMethods : gmap string string
}.

(** [sys.stdout]: whether the write of [print] succeeds, and what has been
    written. *)
Record Stream : Type := mkStream {
  is_open : bool;
  written : string
}.

Record World : Type := mkWorld {
  registry : Registry;
  stdout : Stream
}.

Definition namespace (r : Registry) (g : global) : gmap string string :=
  match g with
  | CommandArgs_ => reg_CommandArgs r
  | DataSources_ => reg_DataSources r
  | AnalysisTypes_ => reg_AnalysisTypes r
  | DeliveryMethods_ => reg_DeliveryMethods r
  end.

(** State and exceptions. *)
Definition M (A : Type) : Type := World → result A * World.

Global Instance M_ret : MRet M := λ A a w, (Return a, w).

Global Instance M_bind : MBind M := λ A B k m w,
  match m w with
  | (Return a, w') => k a w'
  | (Raise e, w') => (Raise e, w')
  end.

(** [raise e]: the world stays as it is. *)
Definition raise {A : Type} (e : exn) : M A := λ w, (Raise e, w).

(** ** The option registry *)

(** [SimpleNamespace] applied to keyword arguments: an object with one
    attribute per keyword. *)
Definition SimpleNamespace (kwargs : list (string * string)) : gmap string string :=
  list_to_map kwargs.

Definition CommandArgs_kwargs : list (string * string) :=
  [ ("SOURCE", "--source");
    ("ANALYSIS", "--analysis");
    ("DELIVERY", "--delivery");
    ("DAYS", "--days");
    ("SCHEDULE", "--schedule");
    ("HELP", "--help") ].

Definition DataSources_kwargs : list (string * string) :=
  [ ("DATABASE_ENTRIES", "database_entries");
    ("RECENT_DOCUMENTS", "recent_documents") ].

Definition AnalysisTypes_kwargs : list (string * string) :=
  [ ("DOMI", "domi");
    ("AGA", "aga") ].

Definition DeliveryMethods_kwargs : list (string * string) :=
  [ ("CONSOLE", "console");
    ("EMAIL_TEXT", "email_text");
    ("EMAIL_HTML", "email_html");
    ("FILE_TEXT", "file_text");
    ("FILE_HTML", "file_html") ].

Definition CommandArgs : gmap string string := SimpleNamespace CommandArgs_kwargs.
Definition DataSources : gmap string string := SimpleNamespace DataSources_kwargs.
Definition AnalysisTypes : gmap string string := SimpleNamespace AnalysisTypes_kwargs.
Definition DeliveryMethods : gmap string string := SimpleNamespace DeliveryMethods_kwargs.

(** The keywords each group is declared with. *)
Definition kwargs_of (g : global) : list (string * string) :=
  match g with
  | CommandArgs_ => CommandArgs_kwargs
  | DataSources_ => DataSources_kwargs
  | AnalysisTypes_ => AnalysisTypes_kwargs
  | DeliveryMethods_ => DeliveryMethods_kwargs
  end.

(** The registry once the module has been imported. *)
Definition registry0 : Registry :=
  mkRegistry CommandArgs DataSources AnalysisTypes DeliveryMethods.

(** [r] has every attribute of [r0], with the same value. *)
Definition extends (r0 r : Registry) : Prop :=
  reg_CommandArgs r0 ⊆ reg_CommandArgs r ∧
  reg_DataSources r0 ⊆ reg_DataSources r ∧
  reg_AnalysisTypes r0 ⊆ reg_AnalysisTypes r ∧
  reg_DeliveryMethods r0 ⊆ reg_DeliveryMethods r.

Global Instance extends_dec r0 r : Decision (extends r0 r).
Proof. unfold extends. apply _. Defined.

(** ** The usage printer *)

(** An f-string: literal text and replacement fields [{Name.ATTR}]. *)
Inductive piece : Type :=
  | Lit (s : string)
  | Attr (g : global) (attr : string).

Global Instance piece_eq_dec : EqDecision piece.
Proof. solve_decision. Defined.

(** The lines of a text, joined by line feeds. *)
Fixpoint unlines (ls : list (list piece)) : list piece :=
  match ls with
  | [] => []
  | [l] => l
  | l :: ls' => l ++ Lit nl :: unlines ls'
  end.

(** The f-string of [print_usage], one list per line of the source, from the
    line feed after the opening quotes to the blanks before the closing ones. *)
Definition usage_lines : list (list piece) :=
  [ [];
    [Lit "🥒 Pickles - Personal Insight Analytics System"];
    [];
    [Lit "使用方法:"];
    [Lit "  python main.py [オプション]"];
    [];
    [Lit "オプション:"];
    [Lit "  "; Attr CommandArgs_ "SOURCE"; Lit "         データソース ("; Attr DataSources_ "DATABASE_ENTRIES"; Lit " | "; Attr DataSources_ "RECENT_DOCUMENTS"; Lit ")"];
    [Lit "  "; Attr CommandArgs_ "ANALYSIS"; Lit "       分析タイプ ("; Attr AnalysisTypes_ "DOMI"; Lit " | "; Attr AnalysisTypes_ "AGA"; Lit ")"];
    [Lit "  "; Attr CommandArgs_ "DELIVERY"; Lit "       配信方法 ("; Attr DeliveryMethods_ "CONSOLE"; Lit ","; Attr DeliveryMethods_ "EMAIL_TEXT"; Lit ","; Attr DeliveryMethods_ "EMAIL_HTML"; Lit ","; Attr DeliveryMethods_ "FILE_TEXT"; Lit ","; Attr DeliveryMethods_ "FILE_HTML"; Lit ")"];
    [Lit "  "; Attr CommandArgs_ "DAYS"; Lit "          取得日数 (デフォルト: 7)"];
    [Lit "  "; Attr CommandArgs_ "SCHEDULE"; Lit "      定期実行モード"];
    [Lit "  "; Attr CommandArgs_ "HELP"; Lit "          このヘルプを表示"];
    [];
    [Lit "例:"];
    [Lit "<<<<<<< HEAD"];
    [Lit "  python main.py                                                                # デフォルト: "; Attr DataSources_ "DATABASE_ENTRIES"];
    [Lit "  python main.py "; Attr CommandArgs_ "SOURCE"; Lit " "; Attr DataSources_ "RECENT_DOCUMENTS"; Lit " "; Attr CommandArgs_ "ANALYSIS"; Lit " "; Attr AnalysisTypes_ "DOMI"];
    [Lit "======="];
    [Lit "  python main.py                                                                # デフォルト: "; Attr DataSources_ "RECENT_DOCUMENTS"];
    [Lit "  python main.py "; Attr CommandArgs_ "SOURCE"; Lit " "; Attr DataSources_ "RECENT_DOCUMENTS"; Lit " "; Attr CommandArgs_ "ANALYSIS"; Lit " "; Attr AnalysisTypes_ "COMPREHENSIVE"];
    [Lit ">>>>>>> 5a55b1e (feat: デフォルトではnotionの全体から記事を持ってくるようにした)"];
    [Lit "  python main.py "; Attr CommandArgs_ "DELIVERY"; Lit " "; Attr DeliveryMethods_ "CONSOLE"; Lit ","; Attr DeliveryMethods_ "FILE_HTML"; Lit " "; Attr CommandArgs_ "DAYS"; Lit " 14"];
    [Lit "  python main.py "; Attr CommandArgs_ "SCHEDULE"];
    [Lit "        "] ].

Definition usage_template : list piece := unlines usage_lines.

(** The name a global is written with. *)
Definition global_name (g : global) : string :=
  match g with
  | CommandArgs_ => "CommandArgs"
  | DataSources_ => "DataSources"
  | AnalysisTypes_ => "AnalysisTypes"
  | DeliveryMethods_ => "DeliveryMethods"
  end.

(** The source text of an f-string. *)
Definition piece_source (p : piece) : string :=
  match p with
  | Lit s => s
  | Attr g attr => "{" +:+ global_name g +:+ "." +:+ attr +:+ "}"
  end.

Definition template_source (t : list piece) : string :=
  foldr (λ p rest, piece_source p +:+ rest) "" t.

(** [Name.ATTR]: the attribute, or [AttributeError]. *)
Definition getattr (g : global) (attr : string) : M string := λ w,
  match namespace (registry w) g !! attr with
  | Some v => (Return v, w)
  | None => raise (AttributeError g attr) w
  end.

(** Evaluation of an f-string: the fields are evaluated from left to right
    and the texts concatenated; the first exception ends the evaluation. *)
Fixpoint fstring (t : list piece) : M string :=
  match t with
  | [] => mret ""
  | Lit s :: t' => rest ← fstring t'; mret (s +:+ rest)
  | Attr g attr :: t' => v ← getattr g attr; rest ← fstring t'; mret (v +:+ rest)
  end.

(** [print(s)]: [s] and a line feed are written to [sys.stdout].  The
    writes of the builtin are taken as one step that succeeds or fails, and
    [OSError] stands for whatever a failing write raises; the properties below
    use the outcome of the write only, never what a failed write has left on
    the stream. *)
Definition print (s : string) : M unit := λ w,
  if is_open (stdout w)
  then (Return (), mkWorld (registry w) (mkStream true (written (stdout w) +:+ s +:+ nl)))
  else raise OSError w.

(** [UsagePrinter.print_usage]. *)
Definition print_usage : M unit :=
  usage ← fstring usage_template;
  print usage.

(** A fresh process: the registry as declared, nothing written yet. *)
Definition world0 : World := mkWorld registry0 (mkStream true "").

(** The registry after [AnalysisTypes.COMPREHENSIVE = v]. *)
Definition with_COMPREHENSIVE (v : string) (r : Registry) : Registry :=
  mkRegistry (reg_CommandArgs r) (reg_DataSources r)
             (<["COMPREHENSIVE" := v]> (reg_AnalysisTypes r)) (reg_DeliveryMethods r).

Definition world1 : World :=
  mkWorld (with_COMPREHENSIVE "comprehensive" registry0) (mkStream true "").


(** The text an f-string evaluates to in a registry: [fstring] without the
    state it threads. *)
Fixpoint render (r : Registry) (t : list piece) : result string :=
  match t with
  | [] => Return ""
  | Lit s :: t' =>
      match render r t' with
      | Return rest => Return (s +:+ rest)
      | Raise e => Raise e
      end
  | Attr g attr :: t' =>
      match namespace r g !! attr with
      | Some v =>
          match render r t' with
          | Return rest => Return (v +:+ rest)
          | Raise e => Raise e
          end
      | None => Raise (AttributeError g attr)
      end
  end.

(** The replacement field of the f-string that names no attribute of the
    registry as declared, and the pieces before and after it. *)
Definition missing_field : piece := Attr AnalysisTypes_ "COMPREHENSIVE".

Definition missing_index : nat :=
  from_option fst 0 (list_find (λ p, p = missing_field) usage_template).

Definition usage_before : list piece := take missing_index usage_template.
Definition usage_after : list piece := drop (S missing_index) usage_template.

Definition text_of (x : result string) : string :=
  match x with
  | Return s => s
  | Raise _ => ""
  end.

Definition usage_head : string := text_of (render registry0 usage_before).
Definition usage_tail : string := text_of (render registry0 usage_after).

(** The usage text, given the value of [AnalysisTypes.COMPREHENSIVE]. *)
Definition usage_text (v : string) : string := usage_head +:+ v +:+ usage_tail.

(** The world a call leaves behind. *)
Definition run (m : M unit) (w : World) : World := snd (m w).

(** The lines the examples of the usage text are compared with: the markers
    of a merge conflict, and the example without arguments up to the name of
    its default data source. *)
Definition marker_ours : string := "<<<<<<< HEAD".
Definition marker_sep : string := "=======".
Definition marker_theirs : string :=
  ">>>>>>> 5a55b1e (feat: デフォルトではnotionの全体から記事を持ってくるようにした)".
Definition no_argument_example : string :=
  "  python main.py                                                                # デフォルト: ".

(** The replacement fields of an f-string, in the order of its text. *)
Fixpoint fields (t : list piece) : list (global * string) :=
  match t with
  | [] => []
  | Lit _ :: t' => fields t'
  | Attr g attr :: t' => (g, attr) :: fields t'
  end.

(** How often an f-string names the attribute [attr] of [g]. *)
Definition field_count (g : global) (attr : string) (t : list piece) : nat :=
  length (filter (λ f, f = (g, attr)) (fields t)).

(** The registry with the namespace bound to [g] replaced. *)
Definition set_namespace (g : global) (m : gmap string string) (r : Registry) : Registry :=
  match g with
  | CommandArgs_ =>
      mkRegistry m (reg_DataSources r) (reg_AnalysisTypes r) (reg_DeliveryMethods r)
  | DataSources_ =>
      mkRegistry (reg_CommandArgs r) m (reg_AnalysisTypes r) (reg_DeliveryMethods r)
  | AnalysisTypes_ =>
      mkRegistry (reg_CommandArgs r) (reg_DataSources r) m (reg_DeliveryMethods r)
  | DeliveryMethods_ =>
      mkRegistry (reg_CommandArgs r) (reg_DataSources r) (reg_AnalysisTypes r) m
  end.

(** The registry after [Name.ATTR = v] and after [del Name.ATTR]. *)
Definition setattr (g : global) (attr v : string) (r : Registry) : Registry :=
  set_namespace g (<[attr := v]> (namespace r g)) r.

Definition delattr (g : global) (attr : string) (r : Registry) : Registry :=
  set_namespace g (delete attr (namespace r g)) r.

(** A fresh process after [del CommandArgs.SOURCE]. *)
Definition world2 : World :=
  mkWorld (delattr CommandArgs_ "SOURCE" registry0) (mkStream true "").

(** [world1] after [CommandArgs.SOURCE = "--src"]. *)
Definition world3 : World :=
  mkWorld (setattr CommandArgs_ "SOURCE" "--src" (registry world1)) (mkStream true "").

(** [world1] after [DataSources.ARCHIVE = "archive"]. *)
Definition world4 : World :=
  mkWorld (setattr DataSources_ "ARCHIVE" "archive" (registry world1)) (mkStream true "").

(** The lines of the usage text with the declared values in place, given
    the value [v] of [AnalysisTypes.COMPREHENSIVE]. *)
Definition expected_usage_lines (v : string) : list string :=
  [
    "";
    "🥒 Pickles - Personal Insight Analytics System";
    "";
    "使用方法:";
    "  python main.py [オプション]";
    "";
    "オプション:";
    "  --source         データソース (database_entries | recent_documents)";
    "  --analysis       分析タイプ (domi | aga)";
    "  --delivery       配信方法 (console,email_text,email_html,file_text,file_html)";
    "  --days          取得日数 (デフォルト: 7)";
    "  --schedule      定期実行モード";
    "  --help          このヘルプを表示";
    "";
    "例:";
    "<<<<<<< HEAD";
    "  python main.py                                                                # デフォルト: database_entries";
    "  python main.py --source recent_documents --analysis domi";
    "=======";
    "  python main.py                                                                # デフォルト: recent_documents";
    "  python main.py --source recent_documents --analysis " +:+ v;
    ">>>>>>> 5a55b1e (feat: デフォルトではnotionの全体から記事を持ってくるようにした)";
    "  python main.py --delivery console,file_html --days 14";
    "  python main.py --schedule";
    "        " ].

(** ** Facts about texts *)

Section text_facts.
Implicit Types p q s t u : string.

Lemma str_app_nil_l s : "" +:+ s = s.
Proof. reflexivity. Qed.

Lemma str_app_cons c s t : String c s +:+ t = String c (s +:+ t).
Proof. reflexivity. Qed.

Lemma str_app_nil_r s : s +:+ "" = s.
Proof. induction s as [|c s IH]; [done|]. by rewrite str_app_cons, IH. Qed.

Lemma str_app_assoc s t u : (s +:+ t) +:+ u = s +:+ t +:+ u.
Proof.
  induction s as [|c s IH]; [done|].
  by rewrite !str_app_cons, IH.
Qed.

Lemma str_app_eq_nil s t : s +:+ t = "" → s = "" ∧ t = "".
Proof. destruct s; [done|]. rewrite str_app_cons. discriminate. Qed.

Lemma startswith_spec p s : startswith p s = true ↔ ∃ b, s = p +:+ b.
Proof.
  revert s. induction p as [|c p IH]; intros s; simpl.
  - split; [|done]. intros _. by exists s.
  - destruct s as [|d s].
    + split; [done|]. intros [b Hb]. rewrite str_app_cons in Hb. discriminate.
    + rewrite andb_true_iff, Ascii.eqb_eq, IH. split.
      * intros [-> [b ->]]. by exists b.
      * intros [b Hb]. rewrite str_app_cons in Hb. injection Hb as -> ->. eauto.
Qed.

Lemma contains_spec p s : contains p s = true ↔ Substring p s.
Proof.
  unfold Substring. induction s as [|d s IH]; simpl.
  - rewrite orb_false_r, startswith_spec. split.
    + intros [b Hb]. by exists "", b.
    + intros (a & b & Hab). symmetry in Hab.
      apply str_app_eq_nil in Hab as [-> Hab].
      apply str_app_eq_nil in Hab as [-> ->]. by exists "".
  - rewrite orb_true_iff, startswith_spec, IH. split.
    + intros [[b Hb]|(a & b & ->)].
      * by exists "", b.
      * by exists (String d a), b.
    + intros ([|c a] & b & Hab).
      * left. by exists b.
      * right. rewrite str_app_cons in Hab. injection Hab as _ ->. eauto.
Qed.

Lemma slice_from_app p b : slice_from (String.length p) (p +:+ b) = b.
Proof. induction p as [|c p IH]; [by destruct b|]. by rewrite str_app_cons. Qed.

Lemma FollowedBy_here p q s :
  startswith p s = true →
  contains q (slice_from (String.length p) s) = true →
  FollowedBy p q s.
Proof.
  rewrite startswith_spec, contains_spec. intros [b ->].
  rewrite slice_from_app. intros (x & y & ->). by exists "", x, y.
Qed.

Lemma contains_then_sound p q s : contains_then p q s = true → FollowedBy p q s.
Proof.
  induction s as [|d s IH]; simpl; rewrite orb_true_iff, andb_true_iff.
  - intros [[??]|?]; [by apply FollowedBy_here|done].
  - intros [[??]|Hs]; [by apply FollowedBy_here|].
    destruct (IH Hs) as (a & b & c & ->). by exists (String d a), b, c.
Qed.

Lemma Substring_app_l p s t : Substring p s → Substring p (s +:+ t).
Proof.
  intros (a & b & ->). exists a, (b +:+ t). by rewrite !str_app_assoc.
Qed.

Lemma Substring_app_r p s t : Substring p t → Substring p (s +:+ t).
Proof.
  intros (a & b & ->). exists (s +:+ a), b. by rewrite !str_app_assoc.
Qed.

Lemma FollowedBy_app_l p q s t : FollowedBy p q s → FollowedBy p q (s +:+ t).
Proof.
  intros (a & b & c & ->). exists a, b, (c +:+ t). by rewrite !str_app_assoc.
Qed.

Lemma FollowedBy_app_r p q s t : FollowedBy p q t → FollowedBy p q (s +:+ t).
Proof.
  intros (a & b & c & ->). exists (s +:+ a), b, c. by rewrite !str_app_assoc.
Qed.

(** Nothing but the empty text occurs in the empty text. *)
Lemma Substring_empty p : Substring p "" → p = "".
Proof.
  intros (a & b & Hab). symmetry in Hab.
  apply str_app_eq_nil in Hab as [_ Hab].
  by apply str_app_eq_nil in Hab as [-> _].
Qed.

Lemma FollowedBy_empty p q : FollowedBy p q "" → p = "" ∧ q = "".
Proof.
  intros (a & b & c & Hab). symmetry in Hab.
  apply str_app_eq_nil in Hab as [_ Hab].
  apply str_app_eq_nil in Hab as [-> Hab].
  apply str_app_eq_nil in Hab as [_ Hab].
  by apply str_app_eq_nil in Hab as [-> _].
Qed.

End text_facts.

(** ** Facts about the code *)

Section code_facts.
Implicit Types (r : Registry) (w : World) (t : list piece).

(** Evaluating an f-string leaves the world as it is. *)
Lemma fstring_render t w : fstring t w = (render (registry w) t, w).
Proof.
  induction t as [|[s|g a] t IH]; simpl; [done|..].
  - unfold mbind, M_bind. rewrite IH. by destruct (render _ t).
  - unfold mbind, M_bind, getattr.
    destruct (namespace _ g !! a); [|done].
    rewrite IH. by destruct (render _ t).
Qed.

Lemma print_usage_unfold w :
  print_usage w =
    match render (registry w) usage_template with
    | Return usage => print usage w
    | Raise e => (Raise e, w)
    end.
Proof. unfold print_usage, mbind, M_bind. by rewrite fstring_render. Qed.

Lemma print_registry s w : registry (snd (print s w)) = registry w.
Proof. unfold print. by destruct (is_open _). Qed.

Lemma print_usage_registry w : registry (snd (print_usage w)) = registry w.
Proof.
  rewrite print_usage_unfold. destruct (render _ _); [|done].
  apply print_registry.
Qed.

Lemma render_app r t1 t2 :
  render r (t1 ++ t2) =
    match render r t1 with
    | Return a =>
        match render r t2 with
        | Return b => Return (a +:+ b)
        | Raise e => Raise e
        end
    | Raise e => Raise e
    end.
Proof.
  induction t1 as [|[s|g a] t1 IH]; simpl.
  - by destruct (render r t2).
  - rewrite IH. destruct (render r t1); [|done].
    destruct (render r t2); [|done]. by rewrite str_app_assoc.
  - destruct (namespace r g !! a); [|done].
    rewrite IH. destruct (render r t1); [|done].
    destruct (render r t2); [|done]. by rewrite str_app_assoc.
Qed.

Lemma extends_refl r : extends r r.
Proof. by repeat split. Qed.

(** The attributes of a declared group are its keywords. *)
Lemma kwargs_of_NoDup g : NoDup (kwargs_of g).*1.
Proof. destruct g; apply (bool_decide_unpack _); by vm_compute. Qed.

Lemma namespace_registry0 g k v :
  namespace registry0 g !! k = Some v ↔ (k, v) ∈ kwargs_of g.
Proof.
  rewrite (elem_of_list_to_map _ _ _ (kwargs_of_NoDup g)). by destruct g.
Qed.

Lemma namespace_extends r0 r g : extends r0 r → namespace r0 g ⊆ namespace r g.
Proof. intros (? & ? & ? & ?). by destruct g. Qed.

(** A text rendered in a registry is rendered alike in every registry
    that extends it. *)
Lemma render_extends r0 r t out :
  extends r0 r → render r0 t = Return out → render r t = Return out.
Proof.
  intros Hext. revert out. induction t as [|[s|g a] t IH]; simpl; intros out.
  - done.
  - destruct (render r0 t) as [rest|]; [|done].
    intros [= <-]. by rewrite (IH rest).
  - destruct (namespace r0 g !! a) as [v|] eqn:Hv; [|done].
    rewrite (lookup_weaken _ _ _ _ Hv (namespace_extends _ _ g Hext)).
    destruct (render r0 t) as [rest|]; [|done].
    intros [= <-]. by rewrite (IH rest).
Qed.

Lemma usage_template_split :
  usage_template = usage_before ++ missing_field :: usage_after.
Proof. by vm_compute. Qed.

Lemma render_usage_before : render registry0 usage_before = Return usage_head.
Proof. by vm_compute. Qed.

Lemma render_usage_after : render registry0 usage_after = Return usage_tail.
Proof. by vm_compute. Qed.

(** The f-string of [print_usage] in a registry that has every declared
    attribute: the text, when [AnalysisTypes.COMPREHENSIVE] exists, and the
    exception otherwise. *)
Lemma render_usage r :
  extends registry0 r →
  render r usage_template =
    match reg_AnalysisTypes r !! "COMPREHENSIVE" with
    | Some v => Return (usage_text v)
    | None => Raise (AttributeError AnalysisTypes_ "COMPREHENSIVE")
    end.
Proof.
  intros Hext. rewrite usage_template_split, render_app.
  rewrite (render_extends _ _ _ _ Hext render_usage_before).
  change (render r (missing_field :: usage_after)) with
    (match reg_AnalysisTypes r !! "COMPREHENSIVE" with
     | Some v =>
         match render r usage_after with
         | Return rest => Return (v +:+ rest)
         | Raise e => Raise e
         end
     | None => Raise (AttributeError AnalysisTypes_ "COMPREHENSIVE")
     end).
  destruct (reg_AnalysisTypes r !! "COMPREHENSIVE"); [|done].
  by rewrite (render_extends _ _ _ _ Hext render_usage_after).
Qed.

Lemma print_usage_spec w :
  extends registry0 (registry w) →
  print_usage w =
    match reg_AnalysisTypes (registry w) !! "COMPREHENSIVE" with
    | Some v => print (usage_text v) w
    | None => (Raise (AttributeError AnalysisTypes_ "COMPREHENSIVE"), w)
    end.
Proof.
  intros Hext. rewrite print_usage_unfold, (render_usage _ Hext).
  by destruct (_ !! _).
Qed.

(** What a call that returns has written. *)
Lemma print_usage_Return w w' :
  extends registry0 (registry w) →
  print_usage w = (Return (), w') →
  ∃ v, reg_AnalysisTypes (registry w) !! "COMPREHENSIVE" = Some v ∧
       written (stdout w') = written (stdout w) +:+ usage_text v +:+ nl.
Proof.
  intros Hext. rewrite (print_usage_spec _ Hext).
  destruct (_ !! _) as [v|]; [|done].
  unfold print. destruct (is_open _); [|done].
  intros [= <-]. by exists v.
Qed.

(** In the registry as declared the call raises, whatever the stream. *)
Lemma print_usage_registry0 so :
  print_usage (mkWorld registry0 so) =
    (Raise (AttributeError AnalysisTypes_ "COMPREHENSIVE"), mkWorld registry0 so).
Proof. by rewrite print_usage_spec by apply extends_refl. Qed.

End code_facts.

(** ** The usage text *)

(** The text [print_usage] writes when the f-string evaluates, whatever value
    [AnalysisTypes.COMPREHENSIVE] is given. *)

Ltac in_head := apply Substring_app_l, contains_spec; by vm_compute.
Ltac in_tail := do 2 apply Substring_app_r; apply contains_spec; by vm_compute.

Section usage_text_facts.
Variable v : string.

Lemma CommandArgs_kwargs_lookup k tok :
  CommandArgs !! k = Some tok → (k, tok) ∈ CommandArgs_kwargs.
Proof. apply (namespace_registry0 CommandArgs_). Qed.

Lemma usage_text_flag_tokens k tok :
  CommandArgs !! k = Some tok → Substring tok (usage_text v).
Proof.
  intros H%CommandArgs_kwargs_lookup. unfold CommandArgs_kwargs in H.
  repeat (apply elem_of_cons in H as [[= -> ->]|H]; [in_head|]).
  by apply elem_of_nil in H.
Qed.

Lemma usage_text_option_values :
  Substring "database_entries" (usage_text v) ∧
  Substring "recent_documents" (usage_text v) ∧
  Substring "domi" (usage_text v) ∧
  Substring "aga" (usage_text v).
Proof. repeat split; in_head. Qed.

Lemma usage_text_delivery_methods :
  Substring "console,email_text,email_html,file_text,file_html" (usage_text v) ∧
  Substring "  python main.py --delivery console,file_html --days 14" (usage_text v).
Proof. split; [in_head|in_tail]. Qed.

Lemma usage_text_days_schedule :
  FollowedBy "--days" "7" (usage_text v) ∧ Substring "--schedule" (usage_text v).
Proof.
  split; [|in_head].
  apply FollowedBy_app_l, contains_then_sound. by vm_compute.
Qed.

Lemma usage_text_examples :
  HasLine (no_argument_example +:+ "database_entries") (usage_text v) ∧
  HasLine "  python main.py --source recent_documents --analysis domi" (usage_text v) ∧
  HasLine "  python main.py --delivery console,file_html --days 14" (usage_text v) ∧
  HasLine "  python main.py --schedule" (usage_text v).
Proof. repeat split; (in_head || in_tail). Qed.

Lemma usage_text_conflict :
  HasLine marker_ours (usage_text v) ∧
  HasLine marker_sep (usage_text v) ∧
  HasLine marker_theirs (usage_text v) ∧
  HasLine (no_argument_example +:+ "database_entries") (usage_text v) ∧
  HasLine (no_argument_example +:+ "recent_documents") (usage_text v).
Proof. repeat split; (in_head || in_tail). Qed.

End usage_text_facts.

(** With [AnalysisTypes.COMPREHENSIVE] set, the call returns and a flag
    token recurs wherever the examples use it. *)
Lemma print_usage_world1_occurrences :
  fst (print_usage world1) = Return () ∧
  map (λ tok, occurrences tok (written (stdout (run print_usage world1))))
      ["--source"; "--analysis"; "--delivery"; "--days"; "--schedule"; "--help"]
  = [3; 3; 2; 2; 2; 1].
Proof. by vm_compute. Qed.

(** ** The properties of the specification *)

(** C1 (as the code has it): in the registry as declared, [print_usage]
    raises [AttributeError] for [AnalysisTypes.COMPREHENSIVE] while it builds
    the usage text, whether or not the output stream is available; it never
    reaches the write, so it writes nothing and never fails with an I/O
    error. *)
Theorem print_usage_raises_AttributeError :
  ∀ so : Stream,
    print_usage (mkWorld registry0 so) =
      (Raise (AttributeError AnalysisTypes_ "COMPREHENSIVE"), mkWorld registry0 so) ∧
    fst (print_usage (mkWorld registry0 so)) ≠ Return () ∧
    fst (print_usage (mkWorld registry0 so)) ≠ Raise OSError.
Proof. intros so. by rewrite print_usage_registry0. Qed.

(** C2: [AnalysisTypes] defines exactly the keys [DOMI], mapped to "domi",
    and [AGA], mapped to "aga"; it has no key [COMPREHENSIVE], although the
    usage template has the replacement field [AnalysisTypes.COMPREHENSIVE]. *)
Theorem AnalysisTypes_has_no_COMPREHENSIVE :
  (∀ k v : string,
     AnalysisTypes !! k = Some v ↔ (k = "DOMI" ∧ v = "domi") ∨ (k = "AGA" ∧ v = "aga")) ∧
  size AnalysisTypes = 2 ∧
  AnalysisTypes !! "COMPREHENSIVE" = None ∧
  Attr AnalysisTypes_ "COMPREHENSIVE" ∈ usage_template ∧
  Substring "{AnalysisTypes.COMPREHENSIVE}" (template_source usage_template).
Proof.
  split; [|split; [|split; [|split]]].
  - intros k v.
    rewrite (namespace_registry0 AnalysisTypes_). simpl.
    unfold AnalysisTypes_kwargs. rewrite !elem_of_cons, elem_of_nil.
    split.
    + intros [[= -> ->]|[[= -> ->]|[]]]; auto.
    + intros [[-> ->]|[-> ->]]; auto.
  - by vm_compute.
  - by vm_compute.
  - rewrite usage_template_split. apply elem_of_app. right. apply list_elem_of_here.
  - apply contains_spec. by vm_compute.
Qed.

(** C3 fails as stated: the f-string names [CommandArgs.SOURCE] three
    times, in the list of options and in two examples, so when [print_usage]
    writes its text, here with [AnalysisTypes.COMPREHENSIVE] set, the text
    has "--source" three times and not once. *)
Lemma flag_tokens_repeated :
  field_count CommandArgs_ "SOURCE" usage_template = 3 ∧
  CommandArgs !! "SOURCE" = Some "--source" ∧
  fst (print_usage world1) = Return () ∧
  occurrences "--source" (written (stdout (run print_usage world1))) = 3 ∧
  occurrences "--source" (written (stdout (run print_usage world1))) ≠ 1.
Proof. by vm_compute. Qed.

(** C3 (amended): the f-string of [print_usage] names every flag of
    [CommandArgs] at least once; and whenever [print_usage] returns, in a
    registry that has every declared attribute with its declared value, the
    text it has written contains every flag token of [CommandArgs] at least
    once. *)
Theorem print_usage_flag_tokens :
  (∀ k tok : string,
     CommandArgs !! k = Some tok → 1 ≤ field_count CommandArgs_ k usage_template) ∧
  (∀ w w' : World,
     extends registry0 (registry w) →
     print_usage w = (Return (), w') →
     ∃ text : string,
       written (stdout w') = written (stdout w) +:+ text ∧
       ∀ k tok : string, CommandArgs !! k = Some tok → Substring tok text).
Proof.
  split.
  - intros k tok H%CommandArgs_kwargs_lookup. unfold CommandArgs_kwargs in H.
    repeat (apply elem_of_cons in H as [[= -> ->]|H];
            [apply (bool_decide_unpack _); by vm_compute|]).
    by apply elem_of_nil in H.
  - intros w w' Hext Hrun.
    destruct (print_usage_Return _ _ Hext Hrun) as (v & _ & Hw).
    exists (usage_text v +:+ nl). split; [done|].
    intros k tok Hk. by apply Substring_app_l, (usage_text_flag_tokens v k).
Qed.

Lemma print_usage_flag_tokens_witness :
  extends registry0 (registry world1) ∧
  print_usage world1 = (Return (), run print_usage world1) ∧
  ∃ text : string,
    written (stdout (run print_usage world1)) = written (stdout world1) +:+ text ∧
    ∀ k tok : string, CommandArgs !! k = Some tok → Substring tok text.
Proof.
  assert (H1 : extends registry0 (registry world1))
    by (apply (bool_decide_unpack _); vm_compute; exact I).
  assert (H2 : print_usage world1 = (Return (), run print_usage world1))
    by (vm_compute; reflexivity).
  exact (conj H1 (conj H2 (proj2 print_usage_flag_tokens world1 _ H1 H2))).
Defined.

(** C4 (as the code has it): in a fresh process [print_usage] raises before it
    writes, so standard output holds none of the values of [DataSources] and
    [AnalysisTypes] after the call. *)
Theorem print_usage_writes_no_option_values :
  fst (print_usage world0) = Raise (AttributeError AnalysisTypes_ "COMPREHENSIVE") ∧
  ∀ g k v, g = DataSources_ ∨ g = AnalysisTypes_ →
    namespace registry0 g !! k = Some v →
    ¬ Substring v (written (stdout (run print_usage world0))).
Proof.
  split; [by vm_compute|].
  intros g k v Hg Hv Hsub.
  replace (written (stdout (run print_usage world0))) with "" in Hsub by (by vm_compute).
  apply Substring_empty in Hsub as ->.
  apply namespace_registry0 in Hv.
  destruct Hg as [-> | ->]; simpl in Hv;
    repeat (apply elem_of_cons in Hv as [[=]|Hv]); by apply elem_of_nil in Hv.
Qed.

(** C5 (as the code has it): in a fresh process [print_usage] raises before it
    writes, so standard output holds no value of [DeliveryMethods] after the
    call, and not the text "console,file_html". *)
Theorem print_usage_writes_no_delivery_methods :
  fst (print_usage world0) = Raise (AttributeError AnalysisTypes_ "COMPREHENSIVE") ∧
  ¬ Substring "console,file_html" (written (stdout (run print_usage world0))) ∧
  ∀ k v, DeliveryMethods !! k = Some v →
    ¬ Substring v (written (stdout (run print_usage world0))).
Proof.
  split; [by vm_compute|].
  replace (written (stdout (run print_usage world0))) with "" by (by vm_compute).
  split; [by intros ?%Substring_empty|].
  intros k v Hv Hsub. apply Substring_empty in Hsub as ->.
  apply (namespace_registry0 DeliveryMethods_) in Hv. simpl in Hv.
  repeat (apply elem_of_cons in Hv as [[=]|Hv]); by apply elem_of_nil in Hv.
Qed.

(** C6 (as the code has it): in a fresh process [print_usage] raises before it
    writes, so standard output holds neither "--days" followed by "7" nor
    "--schedule" after the call. *)
Theorem print_usage_writes_no_days_schedule :
  fst (print_usage world0) = Raise (AttributeError AnalysisTypes_ "COMPREHENSIVE") ∧
  ¬ FollowedBy "--days" "7" (written (stdout (run print_usage world0))) ∧
  ¬ Substring "--schedule" (written (stdout (run print_usage world0))).
Proof.
  split; [by vm_compute|].
  replace (written (stdout (run print_usage world0))) with "" by (by vm_compute).
  split; [by intros [? ?]%FollowedBy_empty|by intros ?%Substring_empty].
Qed.

(** C7: [print_usage] is deterministic.  Two calls in the same registry
    state, with the output stream in the same condition, end alike and add
    the same text to standard output, whatever was written before; a call
    leaves the registry as it is, so this holds of a call and the next one. *)
Theorem print_usage_deterministic :
  (∀ (r : Registry) (b : bool) (s1 s2 : string),
     ∃ (res : result ()) (text : string),
       print_usage (mkWorld r (mkStream b s1)) =
         (res, mkWorld r (mkStream b (s1 +:+ text))) ∧
       print_usage (mkWorld r (mkStream b s2)) =
         (res, mkWorld r (mkStream b (s2 +:+ text)))) ∧
  (∀ w : World,
     fst (print_usage (run print_usage w)) = fst (print_usage w) ∧
     ∃ text : string,
       written (stdout (run print_usage w)) = written (stdout w) +:+ text ∧
       written (stdout (run print_usage (run print_usage w))) =
         written (stdout (run print_usage w)) +:+ text).
Proof.
  assert (Hpair : ∀ r b s1 s2, ∃ (res : result ()) (text : string),
    print_usage (mkWorld r (mkStream b s1)) =
      (res, mkWorld r (mkStream b (s1 +:+ text))) ∧
    print_usage (mkWorld r (mkStream b s2)) =
      (res, mkWorld r (mkStream b (s2 +:+ text)))).
  { intros r b s1 s2. rewrite !print_usage_unfold. cbn [registry].
    destruct (render r usage_template) as [usage|e].
    - unfold print. cbn [registry stdout is_open written]. destruct b.
      + by exists (Return ()), (usage +:+ nl).
      + exists (Raise OSError), "". by rewrite !str_app_nil_r.
    - exists (Raise e), "". by rewrite !str_app_nil_r. }
  split; [done|].
  intros [r [b s]]. unfold run.
  destruct (Hpair r b s s) as (res & text & H1 & _). rewrite H1.
  cbn [fst snd stdout written].
  destruct (Hpair r b (s +:+ text) s) as (res' & text' & H2 & H3).
  rewrite H1 in H3. injection H3 as <- Htext.
  apply (inj (String.app s)) in Htext as <-.
  rewrite H2. cbn [fst snd stdout written]. eauto.
Qed.

(** C8: in each of the four option groups every key maps to a non-empty
    string, the keys are distinct and so are the values; reading an attribute
    twice gives the same value, and neither a read nor [print_usage] changes
    the registry. *)
Theorem option_groups_invariant :
  (∀ g : global,
     NoDup (kwargs_of g).*1 ∧
     size (namespace registry0 g) = length (kwargs_of g) ∧
     (∀ k v, namespace registry0 g !! k = Some v → v ≠ "") ∧
     (∀ k1 k2 v, namespace registry0 g !! k1 = Some v →
                 namespace registry0 g !! k2 = Some v → k1 = k2)) ∧
  (∀ (g : global) (attr : string) (w : World),
     getattr g attr (snd (getattr g attr w)) = getattr g attr w ∧
     registry (snd (getattr g attr w)) = registry w) ∧
  (∀ w : World, registry (run print_usage w) = registry w).
Proof.
  split; [|split].
  - intros g. split; [apply kwargs_of_NoDup|].
    split; [by destruct g; vm_compute|].
    split.
    + intros k v Hv%namespace_registry0 ->.
      destruct g; simpl in Hv;
        repeat (apply elem_of_cons in Hv as [[=]|Hv]); by apply elem_of_nil in Hv.
    + intros k1 k2 v H1%namespace_registry0 H2%namespace_registry0.
      destruct g; simpl in H1, H2;
        repeat (apply elem_of_cons in H1 as [[= -> ->]|H1]);
        try (by apply elem_of_nil in H1);
        repeat (apply elem_of_cons in H2 as [[=]|H2]);
        try done; by apply elem_of_nil in H2.
  - intros g attr w. unfold getattr, raise.
    destruct (namespace (registry w) g !! attr) eqn:Hattr;
      cbn [fst snd]; by rewrite ?Hattr.
  - intros w. apply print_usage_registry.
Qed.

(** C9 (as the code has it): in a fresh process [print_usage] raises before it
    writes, so standard output holds no line at all after the call: neither
    the example without flags and its default "database_entries" nor any
    other example. *)
Theorem print_usage_writes_no_examples :
  fst (print_usage world0) = Raise (AttributeError AnalysisTypes_ "COMPREHENSIVE") ∧
  ¬ HasLine (no_argument_example +:+ "database_entries")
      (written (stdout (run print_usage world0))) ∧
  ¬ Substring "python main.py" (written (stdout (run print_usage world0))) ∧
  ∀ line : string, ¬ HasLine line (written (stdout (run print_usage world0))).
Proof.
  split; [by vm_compute|].
  replace (written (stdout (run print_usage world0))) with "" by (by vm_compute).
  split; [by intros ?%Substring_empty|].
  split; [by intros ?%Substring_empty|].
  by intros [|c line] ?%Substring_empty.
Qed.

(** C10: the source of the usage template has the three lines of an
    unresolved merge conflict and both branches' example without arguments,
    one with the default [DataSources.DATABASE_ENTRIES] and one with
    [DataSources.RECENT_DOCUMENTS]; and whenever [print_usage] returns, in a
    registry that has every declared attribute with its declared value, the
    text it has written has the three marker lines and both examples, the
    one with "database_entries" and the one with "recent_documents". *)
Theorem usage_conflict_markers (w w' : World) :
  extends registry0 (registry w) →
  print_usage w = (Return (), w') →
  (HasLine marker_ours (template_source usage_template) ∧
   HasLine marker_sep (template_source usage_template) ∧
   HasLine marker_theirs (template_source usage_template) ∧
   HasLine (no_argument_example +:+ "{DataSources.DATABASE_ENTRIES}")
     (template_source usage_template) ∧
   HasLine (no_argument_example +:+ "{DataSources.RECENT_DOCUMENTS}")
     (template_source usage_template)) ∧
  ∃ text : string,
    written (stdout w') = written (stdout w) +:+ text ∧
    HasLine marker_ours text ∧
    HasLine marker_sep text ∧
    HasLine marker_theirs text ∧
    HasLine (no_argument_example +:+ "database_entries") text ∧
    HasLine (no_argument_example +:+ "recent_documents") text.
Proof.
  intros Hext Hrun. split.
  - repeat split; apply contains_spec; by vm_compute.
  - destruct (print_usage_Return _ _ Hext Hrun) as (v & _ & Hw).
    exists (usage_text v +:+ nl). split; [done|].
    destruct (usage_text_conflict v) as (? & ? & ? & ? & ?).
    repeat split; by apply Substring_app_l.
Qed.

Lemma usage_conflict_markers_witness :
  extends registry0 (registry world1) ∧
  print_usage world1 = (Return (), run print_usage world1) ∧
  ∃ text : string,
    written (stdout (run print_usage world1)) = written (stdout world1) +:+ text ∧
    HasLine marker_ours text ∧
    HasLine marker_sep text ∧
    HasLine marker_theirs text ∧
    HasLine (no_argument_example +:+ "database_entries") text ∧
    HasLine (no_argument_example +:+ "recent_documents") text.
Proof.
  assert (H1 : extends registry0 (registry world1))
    by (apply (bool_decide_unpack _); vm_compute; exact I).
  assert (H2 : print_usage world1 = (Return (), run print_usage world1))
    by (vm_compute; reflexivity).
  exact (conj H1 (conj H2 (proj2 (usage_conflict_markers world1 _ H1 H2)))).
Defined.


(** ** Further properties of the usage printer *)

Section fstring_facts.
Implicit Types (r : Registry) (t : list piece).

Lemma elem_of_fields t g attr : (g, attr) ∈ fields t ↔ Attr g attr ∈ t.
Proof.
  induction t as [|[s|g' a'] t IH]; simpl.
  - by rewrite !elem_of_nil.
  - rewrite elem_of_cons, IH. split; [by auto|]. by intros [[=]|?].
  - rewrite !elem_of_cons, IH. split; intros [[= -> ->]|?]; auto.
Qed.

(** An f-string evaluates to a text exactly when each of its fields names
    an attribute. *)
Lemma render_Return_iff r t :
  (∃ s, render r t = Return s) ↔
  ∀ g attr, Attr g attr ∈ t → is_Some (namespace r g !! attr).
Proof.
  induction t as [|[s|g a] t IH]; simpl.
  - split; [|by eauto]. intros _ g attr H. by apply elem_of_nil in H.
  - split.
    + intros [s' Hs] g attr [[=]|Hin]%elem_of_cons.
      apply IH; [|done]. destruct (render r t); [by eauto|done].
    + intros H. destruct IH as [_ [rest ->]]; [|by eauto].
      intros g attr Hin. apply H. by right.
  - split.
    + intros [s' Hs] g' attr [[= -> ->]|Hin]%elem_of_cons.
      * by destruct (namespace r g !! a).
      * apply IH; [|done]. destruct (namespace r g !! a); [|done].
        destruct (render r t); [by eauto|done].
    + intros H. destruct (H g a) as [v ->]; [by left|].
      destruct IH as [_ [rest ->]]; [|by eauto].
      intros g' attr Hin. apply H. by right.
Qed.

(** When the evaluation raises, it is for the first field, in the order of
    the text, that names no attribute. *)
Lemma render_Raise r t e :
  render r t = Raise e →
  ∃ g attr t1 t2,
    e = AttributeError g attr ∧ t = t1 ++ Attr g attr :: t2 ∧
    namespace r g !! attr = None ∧
    ∀ g' attr', Attr g' attr' ∈ t1 → is_Some (namespace r g' !! attr').
Proof.
  induction t as [|[s|g a] t IH]; simpl; [done|..].
  - destruct (render r t) as [rest|e'] eqn:Hr; [done|]. intros [= ->].
    destruct (IH eq_refl) as (g & attr & t1 & t2 & -> & -> & Hnone & Hbefore).
    exists g, attr, (Lit s :: t1), t2. repeat split; [done|].
    intros g' attr' [[=]|Hin]%elem_of_cons. by apply Hbefore.
  - destruct (namespace r g !! a) as [v|] eqn:Hv.
    + destruct (render r t) as [rest|e'] eqn:Hr; [done|]. intros [= ->].
      destruct (IH eq_refl) as (g0 & attr & t1 & t2 & -> & -> & Hnone & Hbefore).
      exists g0, attr, (Attr g a :: t1), t2. repeat split; [done|].
      intros g' attr' [[= -> ->]|Hin]%elem_of_cons; [by eauto|by apply Hbefore].
    + intros [= <-]. exists g, a, [], t. repeat split; [done|].
      intros g' attr' Hin. by apply elem_of_nil in Hin.
Qed.

(** The text has the value of every field and every literal of the f-string. *)
Lemma render_Substring r t s p :
  render r t = Return s →
  p ∈ t →
  match p with
  | Lit l => Substring l s
  | Attr g attr => ∃ v, namespace r g !! attr = Some v ∧ Substring v s
  end.
Proof.
  revert s. induction t as [|q t IH]; intros s Hs Hin.
  { by apply elem_of_nil in Hin. }
  assert (Hhere : ∀ x rest, Substring x (x +:+ rest)) by (intros x rest; by exists "", rest).
  assert (Hnext : ∀ rest, render r t = Return rest → p ∈ t →
    match p with
    | Lit l => ∀ x, Substring l (x +:+ rest)
    | Attr g attr =>
        ∃ v, namespace r g !! attr = Some v ∧ ∀ x, Substring v (x +:+ rest)
    end).
  { intros rest Hrest Hp. specialize (IH rest Hrest Hp). destruct p as [l|g attr].
    - intros x. by apply Substring_app_r.
    - destruct IH as (v & Hv & Hsub). exists v. split; [done|].
      intros x. by apply Substring_app_r. }
  apply elem_of_cons in Hin as [->|Hin]; destruct q as [l|g a]; simpl in Hs.
  - destruct (render r t); [|done]. injection Hs as <-. apply Hhere.
  - destruct (namespace r g !! a) as [v|]; [|done].
    destruct (render r t); [|done]. injection Hs as <-. eauto.
  - destruct (render r t) as [rest|] eqn:Hr; [|done]. injection Hs as <-.
    specialize (Hnext rest eq_refl Hin). destruct p as [l'|g attr]; [done|].
    destruct Hnext as (v & Hv & Hsub). eauto.
  - destruct (namespace r g !! a) as [v|]; [|done].
    destruct (render r t) as [rest|] eqn:Hr; [|done]. injection Hs as <-.
    specialize (Hnext rest eq_refl Hin). destruct p as [l'|g' attr]; [done|].
    destruct Hnext as (v' & Hv' & Hsub). eauto.
Qed.

End fstring_facts.

Lemma usage_text_lines v : usage_text v = String.concat nl (expected_usage_lines v).
Proof. vm_compute. reflexivity. Qed.

Lemma usage_template_has_field g attr :
  bool_decide ((g, attr) ∈ fields usage_template) = true → Attr g attr ∈ usage_template.
Proof. intros H%bool_decide_eq_true. by apply elem_of_fields. Qed.

(** X1: [print_usage] returns exactly when every replacement field of its
    f-string names an attribute of the registry and the output stream takes
    the write. *)
Theorem print_usage_returns_iff (w : World) :
  fst (print_usage w) = Return () ↔
  (∀ g attr, Attr g attr ∈ usage_template → is_Some (namespace (registry w) g !! attr)) ∧
  is_open (stdout w) = true.
Proof.
  rewrite print_usage_unfold, <-render_Return_iff.
  destruct (render (registry w) usage_template) as [usage|e]; unfold print.
  - destruct (is_open (stdout w)); simpl.
    + split; [by eauto|done].
    + split; [done|]. by intros [_ ?].
  - simpl. split; [done|]. by intros [[? ?] _].
Qed.

(** X2: when [print_usage] raises [AttributeError], it is for the first
    replacement field, in the order of the f-string, that names no attribute
    of the registry: every field before it names one. *)
Theorem print_usage_first_missing (w : World) (g : global) (attr : string) :
  fst (print_usage w) = Raise (AttributeError g attr) →
  ∃ t1 t2 : list piece,
    usage_template = t1 ++ Attr g attr :: t2 ∧
    namespace (registry w) g !! attr = None ∧
    ∀ g' attr', Attr g' attr' ∈ t1 → is_Some (namespace (registry w) g' !! attr').
Proof.
  rewrite print_usage_unfold.
  destruct (render (registry w) usage_template) as [usage|e] eqn:Hr.
  - unfold print. by destruct (is_open (stdout w)).
  - simpl. intros [= ->].
    destruct (render_Raise _ _ _ Hr) as (g0 & a0 & t1 & t2 & [= -> ->] & ? & ? & ?).
    by exists t1, t2.
Qed.

Lemma print_usage_first_missing_witness :
  fst (print_usage world2) = Raise (AttributeError CommandArgs_ "SOURCE") ∧
  ∃ t1 t2 : list piece,
    usage_template = t1 ++ Attr CommandArgs_ "SOURCE" :: t2 ∧
    namespace (registry world2) CommandArgs_ !! "SOURCE" = None ∧
    ∀ g' attr', Attr g' attr' ∈ t1 → is_Some (namespace (registry world2) g' !! attr').
Proof.
  assert (H1 : fst (print_usage world2) = Raise (AttributeError CommandArgs_ "SOURCE"))
    by (vm_compute; reflexivity).
  exact (conj H1 (print_usage_first_missing world2 CommandArgs_ "SOURCE" H1)).
Defined.

(** X3: a missing attribute is found before anything is written.  When
    [print_usage] raises [AttributeError], standard output and the registry
    are as they were before the call: no part of the usage text is out, not
    even the lines before the field that failed. *)
Theorem print_usage_AttributeError_writes_nothing
    (w w' : World) (g : global) (attr : string) :
  print_usage w = (Raise (AttributeError g attr), w') → w' = w.
Proof.
  rewrite print_usage_unfold.
  destruct (render (registry w) usage_template) as [usage|e].
  - unfold print, raise. by destruct (is_open (stdout w)).
  - by intros [= _ <-].
Qed.

Lemma print_usage_AttributeError_writes_nothing_witness :
  print_usage world2 = (Raise (AttributeError CommandArgs_ "SOURCE"), run print_usage world2) ∧
  run print_usage world2 = world2.
Proof.
  assert (H1 : print_usage world2 =
                 (Raise (AttributeError CommandArgs_ "SOURCE"), run print_usage world2))
    by (vm_compute; reflexivity).
  exact (conj H1 (print_usage_AttributeError_writes_nothing _ _ _ _ H1)).
Defined.

(** X4: the f-string of [print_usage] uses every attribute the four groups
    declare, and [AnalysisTypes.COMPREHENSIVE] is its only replacement field
    that the groups do not declare. *)
Theorem usage_template_fields_declared (g : global) (attr : string) :
  Attr g attr ∈ usage_template ↔
  is_Some (namespace registry0 g !! attr) ∨ (g = AnalysisTypes_ ∧ attr = "COMPREHENSIVE").
Proof.
  split.
  - intros Hin%elem_of_fields.
    assert (Hall : Forall (λ f : global * string,
              is_Some (namespace registry0 f.1 !! f.2) ∨
              (f.1 = AnalysisTypes_ ∧ f.2 = "COMPREHENSIVE")) (fields usage_template))
      by (apply (bool_decide_unpack _); by vm_compute).
    rewrite Forall_forall in Hall. apply (Hall _ Hin).
  - intros [[v Hv%namespace_registry0]|[-> ->]];
      [|apply usage_template_has_field; by vm_compute].
    destruct g; simpl in Hv;
      repeat (apply elem_of_cons in Hv as [[= -> ->]|Hv];
              [apply usage_template_has_field; by vm_compute|]);
      by apply elem_of_nil in Hv.
Qed.

(** X5: attributes added to the namespaces do not change the usage text.
    When [print_usage] returns in a registry, it returns in every registry
    that has the same attributes with the same values and more, and leaves
    the same text on the output stream. *)
Theorem print_usage_extends (r r' : Registry) (so so' : Stream) :
  extends r r' →
  print_usage (mkWorld r so) = (Return (), mkWorld r so') →
  print_usage (mkWorld r' so) = (Return (), mkWorld r' so').
Proof.
  intros Hext. rewrite !print_usage_unfold. cbn [registry].
  destruct (render r usage_template) as [usage|e] eqn:Hr; [|done].
  rewrite (render_extends _ _ _ _ Hext Hr).
  unfold print, raise. cbn [registry stdout].
  destruct (is_open so); [|done]. by intros [= <-].
Qed.

Lemma print_usage_extends_witness :
  extends (registry world1) (registry world4) ∧
  print_usage (mkWorld (registry world1) (mkStream true "")) =
    (Return (), mkWorld (registry world1) (stdout (run print_usage world1))) ∧
  print_usage (mkWorld (registry world4) (mkStream true "")) =
    (Return (), mkWorld (registry world4) (stdout (run print_usage world1))).
Proof.
  assert (H1 : extends (registry world1) (registry world4))
    by (apply (bool_decide_unpack _); vm_compute; exact I).
  assert (H2 : print_usage (mkWorld (registry world1) (mkStream true "")) =
                 (Return (), mkWorld (registry world1) (stdout (run print_usage world1))))
    by (vm_compute; reflexivity).
  exact (conj H1 (conj H2 (print_usage_extends _ _ _ _ H1 H2))).
Defined.

(** X6: in a registry that has every declared attribute with its declared
    value and gives [AnalysisTypes.COMPREHENSIVE] the value [v], with the
    output stream open, [print_usage] returns and adds to standard output
    exactly the lines of [expected_usage_lines v], joined by line feeds, and
    a final line feed. *)
Theorem print_usage_exact_output (w : World) (v : string) :
  extends registry0 (registry w) →
  reg_AnalysisTypes (registry w) !! "COMPREHENSIVE" = Some v →
  is_open (stdout w) = true →
  print_usage w =
    (Return (),
     mkWorld (registry w)
       (mkStream true
          (written (stdout w) +:+ String.concat nl (expected_usage_lines v) +:+ nl))).
Proof.
  intros Hext Hv Hopen. rewrite (print_usage_spec _ Hext), Hv.
  unfold print. by rewrite Hopen, usage_text_lines.
Qed.

Lemma print_usage_exact_output_witness :
  extends registry0 (registry world1) ∧
  reg_AnalysisTypes (registry world1) !! "COMPREHENSIVE" = Some "comprehensive" ∧
  is_open (stdout world1) = true ∧
  print_usage world1 =
    (Return (),
     mkWorld (registry world1)
       (mkStream true
          (written (stdout world1) +:+
           String.concat nl (expected_usage_lines "comprehensive") +:+ nl))).
Proof.
  assert (H1 : extends registry0 (registry world1))
    by (apply (bool_decide_unpack _); vm_compute; exact I).
  assert (H2 : reg_AnalysisTypes (registry world1) !! "COMPREHENSIVE" = Some "comprehensive")
    by (vm_compute; reflexivity).
  assert (H3 : is_open (stdout world1) = true) by reflexivity.
  exact (conj H1 (conj H2 (conj H3 (print_usage_exact_output world1 _ H1 H2 H3)))).
Defined.

(** X7: [print_usage] fails with the error of the write exactly when every
    replacement field of its f-string names an attribute and the output
    stream is not available: a missing attribute is reported before the
    stream is touched. *)
Theorem print_usage_OSError_iff (w : World) :
  fst (print_usage w) = Raise OSError ↔
  (∀ g attr, Attr g attr ∈ usage_template → is_Some (namespace (registry w) g !! attr)) ∧
  is_open (stdout w) = false.
Proof.
  rewrite print_usage_unfold, <-render_Return_iff.
  destruct (render (registry w) usage_template) as [usage|e] eqn:Hr; unfold print, raise.
  - destruct (is_open (stdout w)); simpl.
    + split; [done|]. by intros [_ ?].
    + split; [by eauto|done].
  - simpl. split; [|by intros [[? ?] _]].
    intros [= ->]. by destruct (render_Raise _ _ _ Hr) as (? & ? & ? & ? & ? & _).
Qed.

(** X8: a value of the registry as declared belongs to one group and one key
    only, and the values that start with "--" are exactly those of
    [CommandArgs]. *)
Theorem registry_values_distinct :
  (∀ g1 g2 k1 k2 v,
     namespace registry0 g1 !! k1 = Some v →
     namespace registry0 g2 !! k2 = Some v → g1 = g2 ∧ k1 = k2) ∧
  (∀ g k v,
     namespace registry0 g !! k = Some v →
     (startswith "--" v = true ↔ g = CommandArgs_)).
Proof.
  split.
  - intros g1 g2 k1 k2 v H1%namespace_registry0 H2%namespace_registry0.
    destruct g1; simpl in H1;
      repeat (apply elem_of_cons in H1 as [[= -> ->]|H1]);
      try (by apply elem_of_nil in H1);
      destruct g2; simpl in H2;
      repeat (apply elem_of_cons in H2 as [[=]|H2]);
      try done; by apply elem_of_nil in H2.
  - intros g k v Hv%namespace_registry0.
    destruct g; simpl in Hv;
      repeat (apply elem_of_cons in Hv as [[= -> ->]|Hv]);
      try (by apply elem_of_nil in Hv); by vm_compute.
Qed.

(** X9: the usage text shows the values the attributes have when
    [print_usage] is called.  When the call returns, the text it has written
    contains the current value of every attribute its f-string names. *)
Theorem print_usage_shows_values (w w' : World) (g : global) (attr v : string) :
  print_usage w = (Return (), w') →
  Attr g attr ∈ usage_template →
  namespace (registry w) g !! attr = Some v →
  ∃ text : string,
    written (stdout w') = written (stdout w) +:+ text ∧ Substring v text.
Proof.
  rewrite print_usage_unfold. intros Hrun Hin Hv.
  destruct (render (registry w) usage_template) as [usage|e] eqn:Hr; [|done].
  unfold print, raise in Hrun. destruct (is_open (stdout w)); [|done].
  injection Hrun as <-. exists (usage +:+ nl). split; [done|].
  destruct (render_Substring _ _ _ _ Hr Hin) as (v' & Hv' & Hsub).
  rewrite Hv in Hv'. injection Hv' as <-. by apply Substring_app_l.
Qed.

Lemma print_usage_shows_values_witness :
  print_usage world3 = (Return (), run print_usage world3) ∧
  Attr CommandArgs_ "SOURCE" ∈ usage_template ∧
  namespace (registry world3) CommandArgs_ !! "SOURCE" = Some "--src" ∧
  ∃ text : string,
    written (stdout (run print_usage world3)) = written (stdout world3) +:+ text ∧
    Substring "--src" text.
Proof.
  assert (H1 : print_usage world3 = (Return (), run print_usage world3))
    by (vm_compute; reflexivity).
  assert (H2 : Attr CommandArgs_ "SOURCE" ∈ usage_template)
    by (apply (bool_decide_unpack _); vm_compute; exact I).
  assert (H3 : namespace (registry world3) CommandArgs_ !! "SOURCE" = Some "--src")
    by (vm_compute; reflexivity).
  exact (conj H1 (conj H2 (conj H3 (print_usage_shows_values _ _ _ _ _ H1 H2 H3)))).
Defined.

(** X10: the literal text of the f-string is printed whatever the registry
    holds.  When [print_usage] returns, the text it has written contains
    every literal piece of the f-string, the title among them. *)
Theorem print_usage_shows_literals (w w' : World) (l : string) :
  print_usage w = (Return (), w') →
  Lit l ∈ usage_template →
  ∃ text : string,
    written (stdout w') = written (stdout w) +:+ text ∧ Substring l text.
Proof.
  rewrite print_usage_unfold. intros Hrun Hin.
  destruct (render (registry w) usage_template) as [usage|e] eqn:Hr; [|done].
  unfold print, raise in Hrun. destruct (is_open (stdout w)); [|done].
  injection Hrun as <-. exists (usage +:+ nl). split; [done|].
  by apply Substring_app_l, (render_Substring _ _ _ _ Hr Hin).
Qed.

Lemma print_usage_shows_literals_witness :
  print_usage world3 = (Return (), run print_usage world3) ∧
  Lit "🥒 Pickles - Personal Insight Analytics System" ∈ usage_template ∧
  ∃ text : string,
    written (stdout (run print_usage world3)) = written (stdout world3) +:+ text ∧
    Substring "🥒 Pickles - Personal Insight Analytics System" text.
Proof.
  assert (H1 : print_usage world3 = (Return (), run print_usage world3))
    by (vm_compute; reflexivity).
  assert (H2 : Lit "🥒 Pickles - Personal Insight Analytics System" ∈ usage_template)
    by (apply (bool_decide_unpack _); vm_compute; exact I).
  exact (conj H1 (conj H2 (print_usage_shows_literals _ _ _ H1 H2))).
Defined.
